(** * GitHub user lookup: state, fetch completions and views of [src/index.tsx]

    A shallow embedding of the application controller ([App]), of the
    tri-state lookup result with its two render visitors, and of the
    client-side ranking of repositories, followed by the properties the
    specification states about them. *)

From stdpp Require Import base numbers strings list gmap sorting relations.

Set Warnings "-register-all".

Local Open Scope Z_scope.

(** ** JavaScript values *)

(** The values a parsed JSON document is made of, plus [undefined], which
    is what reading an absent property yields.  Numbers are kept to the
    integers: the program never computes with a number it reads from the
    user record, and the star counts of the repository records are
    integers. *)
Inductive JsVal : Type :=
| JUndefined
| JNull
| JBool (b : bool)
| JNum (n : Z)
| JStr (s : string)
| JArr (items : list JsVal)
| JObj (fields : gmap string JsVal).

(** [res.k] on a parsed JSON object: the stored value, [undefined] when
    the object has no such property. *)
Definition prop (o : gmap string JsVal) (k : string) : JsVal :=
  default JUndefined (o !! k).

(** [v === "lit"] for a string literal: no coercion, so only a string
    with the same characters is equal to it. *)
Definition strict_eq_str (v : JsVal) (lit : string) : bool :=
  match v with
  | JStr s => String.eqb s lit
  | _ => false
  end.

(** ** Data model *)

(** [id: string | number]. *)
Inductive RepoId : Type :=
| IdStr (s : string)
| IdNum (n : Z).

(** [interface ResRepo]: a repository record as the list endpoint sends it. *)
Module ResRepo.
Record t : Type := mk
  { id : RepoId;
    html_url : string;
    name : string;
    stargazers_count : Z }.
End ResRepo.

(** [interface Repo]: the summary kept in the state. *)
Module Repo.
Record t : Type := mk
  { id : RepoId;
    name : string;
    url : string }.
End Repo.

(** [class User].  The three fields are declared [string], but the
    constructor is called with properties of the untyped response and
    stores them as they are, so they are modelled as the values read. *)
Module User.
Record t : Type := mk
  { avatarUrl : JsVal;
    name : JsVal;
    bio : JsVal }.
End User.

(** [User | NotFound | Nothing]: the three classes that can sit in
    [AppState.user]. *)
Inductive Result : Type :=
| IsUser (u : User.t)
| NotFound
| Nothing.

(** [interface UserVisitor<T>]. *)
Record UserVisitor (T : Type) : Type := Build_UserVisitor
  { visitUser : User.t -> T;
    visitNotFound : T;
    visitNothing : T }.
Arguments Build_UserVisitor {T}.
Arguments visitUser {T}.
Arguments visitNotFound {T}.
Arguments visitNothing {T}.

(** The [accept] method of the three classes, one branch per class. *)
Definition accept {T : Type} (r : Result) (visitor : UserVisitor T) : T :=
  match r with
  | IsUser u => visitUser visitor u
  | NotFound => visitNotFound visitor
  | Nothing => visitNothing visitor
  end.

(** ** Markup *)

(** The element trees the components return.  An attribute holds a
    JavaScript value; a child is literal text, an embedded value
    ([{user.name}]), an element, a fragment, an array of nodes or [null]. *)
Inductive ReactNode : Type :=
| RNull
| RText (s : string)
| RValue (v : JsVal)
| RElement (tag : string) (key : option RepoId)
           (props : list (string * JsVal)) (children : list ReactNode)
| RFragment (children : list ReactNode)
| RArray (items : list ReactNode).

Definition el (tag : string) (props : list (string * JsVal))
    (children : list ReactNode) : ReactNode :=
  RElement tag None props children.

Definition className (c : string) : string * JsVal := ("className"%string, JStr c).

(** [class UserRenderVisitor]. *)
Definition userRenderVisitor : UserVisitor ReactNode :=
  {| visitUser := fun user =>
       RFragment
         [ el "img" [className "user-avatar"; ("src"%string, User.avatarUrl user);
                     ("alt"%string, JStr "")] [];
           el "div" [className "user-name"] [RValue (User.name user)];
           el "div" [className "user-bio"] [RValue (User.bio user)] ];
     visitNotFound :=
       el "div" [className "warning-message"] [RText "User not found."];
     visitNothing :=
       el "div" [className "warning-message"]
          [RText "You haven't made any requests yet."] |}.

Definition repoLink (repo : Repo.t) : ReactNode :=
  RElement "a" (Some (Repo.id repo))
           [className "repo-link"; ("href"%string, JStr (Repo.url repo))]
           [RText (Repo.name repo)].

(** [class ReposRenderVisitor], built from the repo list to show. *)
Definition ReposRenderVisitor (repos : list Repo.t) : UserVisitor ReactNode :=
  {| visitUser := fun _ =>
       RFragment
         [ el "div" [className "repo-section-title"] [RText "Top repositories"];
           RArray (map repoLink repos) ];
     visitNotFound := RNull;
     visitNothing := RNull |}.

(** ** Application state *)

(** [interface AppState]. *)
Record AppState : Type := Build_AppState
  { user : Result;
    repos : list Repo.t }.

(** [state: AppState = { user: new Nothing(), repos: [] }]. *)
Definition initialState : AppState :=
  {| user := Nothing; repos := [] |}.

(** The argument of [setState]: the fields to replace. *)
Record StatePatch : Type := Build_StatePatch
  { patch_user : option Result;
    patch_repos : option (list Repo.t) }.

(** [this.setState(patch)]: a shallow merge, fields absent from the patch
    keep their value. *)
Definition setState (patch : StatePatch) (st : AppState) : AppState :=
  {| user := default (user st) (patch_user patch);
     repos := default (repos st) (patch_repos patch) |}.

(** ** Ranking the repositories *)

(** [Array.prototype.sort(comparefn)] on a copy: a stable sort, where
    [comparefn a b <= 0] keeps [a] before [b].  Each element is put into
    the sorted rest of the array, ahead of the first element it does not
    have to follow, so equal elements keep their order.  The result of a
    stable sort does not depend on the algorithm (see
    [stable_sort_unique] below). *)
Section ArraySort.
Context {A : Type} (comparefn : A -> A -> Z).

Fixpoint sort_insert (x : A) (sorted : list A) : list A :=
  match sorted with
  | [] => [x]
  | y :: rest =>
      if comparefn x y <=? 0 then x :: y :: rest
      else y :: sort_insert x rest
  end.

Definition array_sort (l : list A) : list A :=
  foldr sort_insert [] l.
End ArraySort.

(** [(a, b) => b.stargazers_count - a.stargazers_count]. *)
Definition byStarsDesc (a b : ResRepo.t) : Z :=
  ResRepo.stargazers_count b - ResRepo.stargazers_count a.

(** [(repo): Repo => ({ id: repo.id, name: repo.name, url: repo.html_url })]. *)
Definition toRepo (repo : ResRepo.t) : Repo.t :=
  {| Repo.id := ResRepo.id repo;
     Repo.name := ResRepo.name repo;
     Repo.url := ResRepo.html_url repo |}.

(** [arr.slice(0, n)]. *)
Definition slice0 {A : Type} (n : nat) (arr : list A) : list A := take n arr.

(** The value of [repos] in the completion of [fetchRepos]:
    [res.slice().sort(...).map(...).slice(0, 3)]. *)
Definition topRepos (res : list ResRepo.t) : list Repo.t :=
  slice0 3 (map toRepo (array_sort byStarsDesc res)).

(** ** The two fetch completions *)

(** The callback of [fetchRepos], run on the parsed response. *)
Definition fetchRepos_then (res : list ResRepo.t) (st : AppState) : AppState :=
  setState {| patch_user := None; patch_repos := Some (topRepos res) |} st.

(** The callback of [fetchUser], run on the parsed response: the new
    state, and the argument of the [fetchRepos] call it makes, if any. *)
Definition fetchUser_then (res : gmap string JsVal) (st : AppState)
    : AppState * option JsVal :=
  if strict_eq_str (prop res "message") "Not Found" then
    (setState {| patch_user := Some NotFound; patch_repos := None |} st, None)
  else
    (setState
       {| patch_user :=
            Some (IsUser (User.mk (prop res "avatar_url") (prop res "name")
                                  (prop res "bio")));
          patch_repos := None |} st,
     Some (prop res "repos_url")).

(** ** The controller with its requests in flight *)

(** A request that has been issued and whose callback has not run yet. *)
Inductive Request : Type :=
| UserRequest (url : string)
| ReposRequest (reposUrl : JsVal).

Record System : Type := Build_System
  { app : AppState;
    inflight : list Request }.

Definition initialSystem : System :=
  {| app := initialState; inflight := [] |}.

(** [`https://api.github.com/users/${username}`]. *)
Definition userUrl (username : string) : string :=
  ("https://api.github.com/users/" ++ username)%string.

(** [fetchUser(username)]: issues the request; the state changes when it
    completes. *)
Definition fetchUser (username : string) (sys : System) : System :=
  {| app := app sys;
     inflight := inflight sys ++ [UserRequest (userUrl username)] |}.

(** [fetchRepos(reposUrl)]. *)
Definition fetchRepos (reposUrl : JsVal) (sys : System) : System :=
  {| app := app sys;
     inflight := inflight sys ++ [ReposRequest reposUrl] |}.

(** [submitForm(event)], given the text of the field [search-term]. *)
Definition submitForm (searchTerm : string) (sys : System) : System :=
  fetchUser searchTerm sys.

(** The [i]-th request in flight, a user lookup, completes with [res]. *)
Definition completeUser (i : nat) (res : gmap string JsVal) (sys : System)
    : System :=
  let '(st, next) := fetchUser_then res (app sys) in
  let sys' := {| app := st; inflight := delete i (inflight sys) |} in
  match next with
  | None => sys'
  | Some reposUrl => fetchRepos reposUrl sys'
  end.

(** The [i]-th request in flight, a repository listing, completes with [res]. *)
Definition completeRepos (i : nat) (res : list ResRepo.t) (sys : System)
    : System :=
  {| app := fetchRepos_then res (app sys);
     inflight := delete i (inflight sys) |}.

(** The [i]-th request fails (network error, a body that is not the JSON
    expected): the promise is rejected, nothing handles it, no callback runs. *)
Definition failRequest (i : nat) (sys : System) : System :=
  {| app := app sys; inflight := delete i (inflight sys) |}.

(** What can happen next: a submission, or the completion of any request
    in flight, with any response. *)
Inductive step : System -> System -> Prop :=
| step_submit sys searchTerm :
    step sys (submitForm searchTerm sys)
| step_user sys i url res :
    inflight sys !! i = Some (UserRequest url) ->
    step sys (completeUser i res sys)
| step_repos sys i reposUrl res :
    inflight sys !! i = Some (ReposRequest reposUrl) ->
    step sys (completeRepos i res sys)
| step_fail sys i req :
    inflight sys !! i = Some req ->
    step sys (failRequest i sys).

Definition reachable (sys : System) : Prop := rtc step initialSystem sys.

(** ** Steps between completions *)

(** A step in which no callback runs: a submission, or a request that
    fails. *)
Inductive quiet_step : System -> System -> Prop :=
| quiet_submit sys searchTerm :
    quiet_step sys (submitForm searchTerm sys)
| quiet_fail sys i req :
    inflight sys !! i = Some req ->
    quiet_step sys (failRequest i sys).

(** A step in which no user lookup completes: a quiet step, or the
    completion of a repository listing. *)
Inductive lookup_free_step : System -> System -> Prop :=
| lookup_free_quiet sys sys' :
    quiet_step sys sys' ->
    lookup_free_step sys sys'
| lookup_free_repos sys i reposUrl res :
    inflight sys !! i = Some (ReposRequest reposUrl) ->
    lookup_free_step sys (completeRepos i res sys).

(** ** The view *)

Definition svgPath : string :=
  "M15.5893 14.4127L11.2367 10.06C13.3063 7.33945 12.7786 3.45627 10.058 1.38666C7.33745 -0.682932 3.45427 -0.155226 1.38466 2.56533C-0.684931 5.28588 -0.157224 9.16906 2.56333 11.2387C4.7776 12.9231 7.84371 12.9231 10.058 11.2387L14.4107 15.5913C14.7385 15.9111 15.2615 15.9111 15.5893 15.5913C15.9145 15.2657 15.9145 14.7383 15.5893 14.4127ZM1.83333 6.33333V6.33333C1.83333 3.84805 3.84805 1.83333 6.33333 1.83333C8.81861 1.83333 10.8333 3.84805 10.8333 6.33333C10.8333 8.81861 8.81861 10.8333 6.33333 10.8333C3.84927 10.8304 1.83627 8.81739 1.83333 6.33333L1.83333 6.33333Z".

(** The search form of [render]; its submit handler calls [submitForm]. *)
Definition searchForm : ReactNode :=
  el "form" [className "search-form"; ("action"%string, JStr "")]
     [ el "div" [className "search-input-container"]
          [ el "svg" [("width"%string, JStr "16"); ("height"%string, JStr "16");
                      ("viewBox"%string, JStr "0 0 16 16");
                      ("fill"%string, JStr "none");
                      ("xmlns"%string, JStr "http://www.w3.org/2000/svg")]
               [ el "path" [("d"%string, JStr svgPath);
                            ("fill"%string, JStr "#4F4F4F")] [] ];
            el "input" [className "search-input"; ("type"%string, JStr "text");
                        ("name"%string, JStr "search-term");
                        ("placeholder"%string, JStr "Search for users")] [] ];
       el "button" [className "search-button"] [RText "Search"] ].

(** The two children of the [user-section]. *)
Definition profileView (st : AppState) : ReactNode :=
  accept (user st) userRenderVisitor.

Definition reposView (st : AppState) : ReactNode :=
  accept (user st) (ReposRenderVisitor (repos st)).

(** [render()]. *)
Definition render (st : AppState) : ReactNode :=
  RFragment
    [ searchForm;
      el "section" [className "user-section"] [profileView st; reposView st] ].

(** The elements of a tree that carry the class [c], in document order. *)
Definition has_class (c : string) (props : list (string * JsVal)) : bool :=
  existsb (fun p => String.eqb (fst p) "className" && strict_eq_str (snd p) c)
          props.

Fixpoint elements_by_class (c : string) (n : ReactNode) : list ReactNode :=
  match n with
  | RNull | RText _ | RValue _ => []
  | RElement _ _ props children =>
      (if has_class c props then [n] else [])
        ++ concat (List.map (elements_by_class c) children)
  | RFragment children => concat (List.map (elements_by_class c) children)
  | RArray items => concat (List.map (elements_by_class c) items)
  end.

(** The repository links a rendered tree shows. *)
Definition repo_links (n : ReactNode) : list ReactNode :=
  elements_by_class "repo-link" n.

(** ** What a stable sort by decreasing key is *)

Section StableSort.
Context {A : Type} (key : A -> Z).

(** The comparison [(a, b) => key(b) - key(a)]. *)
Definition descBy (a b : A) : Z := key b - key a.

(** [a] may stand before [b]. *)
Definition key_ge (a b : A) : Prop := key b <= key a.

(** The elements whose key is [k], in the order of the list. *)
Definition with_key (k : Z) (l : list A) : list A :=
  filter (fun a => key a = k) l.

(** [sorted] is [l] stably sorted by decreasing key. *)
Definition stable_sorted_desc (l sorted : list A) : Prop :=
  sorted ≡ₚ l
  /\ StronglySorted key_ge sorted
  /\ forall k, with_key k sorted = with_key k l.
End StableSort.

(** ** A network that answers by the request alone *)

(** Endpoints that answer a request by its URL alone: the parsed body,
    or [None] when the request fails or the body is not what the callback
    can work on (the promise is then rejected and nothing runs). *)
Section Network.
Variable lookupEndpoint : string -> option (gmap string JsVal).
Variable reposEndpoint : JsVal -> option (list ResRepo.t).

(** The oldest request in flight completes with the endpoint's answer. *)
Definition settleRequest (req : Request) (sys : System) : System :=
  match req with
  | UserRequest url =>
      match lookupEndpoint url with
      | Some res => completeUser 0 res sys
      | None => failRequest 0 sys
      end
  | ReposRequest reposUrl =>
      match reposEndpoint reposUrl with
      | Some res => completeRepos 0 res sys
      | None => failRequest 0 sys
      end
  end.

(** Up to [n] completions, oldest request first. *)
Fixpoint settle (n : nat) (sys : System) : System :=
  match n with
  | O => sys
  | S n' =>
      match inflight sys with
      | [] => sys
      | req :: _ => settle n' (settleRequest req sys)
      end
  end.

(** A submission and the (at most two) completions it leads to. *)
Definition submitAndSettle (username : string) (st : AppState) : System :=
  settle 2 (submitForm username {| app := st; inflight := [] |}).
End Network.

(** ** Work left in the promise chains *)

(** The callbacks a request in flight can still lead to: a user lookup
    runs its own and may start a repository listing, a listing runs one. *)
Definition requestWork (req : Request) : nat :=
  match req with
  | UserRequest _ => 2
  | ReposRequest _ => 1
  end.

Fixpoint pendingWork (reqs : list Request) : nat :=
  match reqs with
  | [] => 0
  | req :: rest => requestWork req + pendingWork rest
  end.

(** ** Two lookups in flight at once *)

(** Two submissions in a row from a system with nothing in flight, then
    the four completions in the order: first lookup, second lookup,
    listing of the second, listing of the first. *)
Definition overlappingRun (first second : string)
    (resFirst resSecond : gmap string JsVal)
    (reposFirst reposSecond : list ResRepo.t) (sys : System) : System :=
  completeRepos 0 reposFirst
    (completeRepos 1 reposSecond
       (completeUser 0 resSecond
          (completeUser 0 resFirst
             (submitForm second (submitForm first sys))))).

(** ** Sample data *)

Definition sampleRepo (n : Z) (nm : string) (stars : Z) : ResRepo.t :=
  {| ResRepo.id := IdNum n;
     ResRepo.html_url := ("https://github.com/octocat/" ++ nm)%string;
     ResRepo.name := nm;
     ResRepo.stargazers_count := stars |}.

(** Five repositories with the star counts 5, 20, 20, 1, 9. *)
Definition sampleRepos : list ResRepo.t :=
  [ sampleRepo 1 "alpha" 5; sampleRepo 2 "beta" 20; sampleRepo 3 "gamma" 20;
    sampleRepo 4 "delta" 1; sampleRepo 5 "epsilon" 9 ].

(** The same five, stably sorted by decreasing star count. *)
Definition sampleSorted : list ResRepo.t :=
  [ sampleRepo 2 "beta" 20; sampleRepo 3 "gamma" 20; sampleRepo 5 "epsilon" 9;
    sampleRepo 1 "alpha" 5; sampleRepo 4 "delta" 1 ].

Definition sampleSummary (n : Z) (nm : string) : Repo.t :=
  {| Repo.id := IdNum n;
     Repo.name := nm;
     Repo.url := ("https://github.com/octocat/" ++ nm)%string |}.

(** The body the lookup endpoint sends for an unknown user. *)
Definition notFoundResponse : gmap string JsVal :=
  {[ "message"%string := JStr "Not Found";
     "documentation_url"%string := JStr "https://docs.github.com/rest" ]}.

(** A profile record (an unset [bio] comes as [null]). *)
Definition octocatResponse : gmap string JsVal :=
  {[ "login"%string := JStr "octocat";
     "avatar_url"%string := JStr "https://avatars.githubusercontent.com/u/583231";
     "name"%string := JStr "The Octocat";
     "bio"%string := JNull;
     "repos_url"%string := JStr "https://api.github.com/users/octocat/repos" ]}.

Definition octocat : User.t :=
  {| User.avatarUrl := JStr "https://avatars.githubusercontent.com/u/583231";
     User.name := JStr "The Octocat";
     User.bio := JNull |}.

(** A first lookup, of [octocat], with its user request in flight. *)
Definition octocatSubmitted : System := submitForm "octocat" initialSystem.

(** The lookup of [octocat] has resolved, its repositories too. *)
Definition octocatLoaded : System :=
  completeRepos 0 sampleRepos
    (completeUser 0 octocatResponse octocatSubmitted).

Definition torvaldsResponse : gmap string JsVal :=
  {[ "login"%string := JStr "torvalds";
     "avatar_url"%string := JStr "https://avatars.githubusercontent.com/u/1024025";
     "name"%string := JStr "Linus Torvalds";
     "bio"%string := JNull;
     "repos_url"%string := JStr "https://api.github.com/users/torvalds/repos" ]}.

Definition torvalds : User.t :=
  {| User.avatarUrl := JStr "https://avatars.githubusercontent.com/u/1024025";
     User.name := JStr "Linus Torvalds";
     User.bio := JNull |}.

(** A second lookup is submitted once the first has fully resolved. *)
Definition torvaldsSubmitted : System := submitForm "torvalds" octocatLoaded.

(** The state after [octocat] was found and a later lookup was not: the
    three summaries are still there, and nothing of them is shown. *)
Definition ghostNotFound : System :=
  completeUser 0 notFoundResponse (submitForm "ghost" octocatLoaded).

(** Four repositories with pairwise distinct star counts, and the same
    four in another order. *)
Definition distinctRepos : list ResRepo.t :=
  [ sampleRepo 1 "alpha" 5; sampleRepo 4 "delta" 1; sampleRepo 5 "epsilon" 9;
    sampleRepo 2 "beta" 20 ].

Definition distinctReposShuffled : list ResRepo.t :=
  [ sampleRepo 2 "beta" 20; sampleRepo 1 "alpha" 5; sampleRepo 5 "epsilon" 9;
    sampleRepo 4 "delta" 1 ].

(** A body with a [message] that is not the not-found one and with none
    of the profile fields, as the API sends when it refuses the request. *)
Definition rateLimitResponse : gmap string JsVal :=
  {[ "message"%string := JStr "API rate limit exceeded";
     "documentation_url"%string := JStr "https://docs.github.com/rest" ]}.

(** Endpoints that know [octocat] and its repositories, fail on the
    lookup of [offline], and answer any other lookup with not-found. *)
Definition sampleLookup (url : string) : option (gmap string JsVal) :=
  if String.eqb url (userUrl "octocat") then Some octocatResponse
  else if String.eqb url (userUrl "offline") then None
  else Some notFoundResponse.

Definition sampleListing (reposUrl : JsVal) : option (list ResRepo.t) :=
  if strict_eq_str reposUrl "https://api.github.com/users/octocat/repos"
  then Some sampleRepos
  else None.

(** Two lookups submitted in a row from the start, then found in the
    order submitted. *)
Definition overlapSubmitted : System :=
  submitForm "torvalds" (submitForm "octocat" initialSystem).

Definition overlapOctocatFound : System :=
  completeUser 0 octocatResponse overlapSubmitted.

Definition overlapTorvaldsFound : System :=
  completeUser 0 torvaldsResponse overlapOctocatFound.

(** * Properties *)

(** ** Stable sorting *)

Section SortFacts.
Context {A : Type}.

Lemma sort_insert_perm (cmp : A -> A -> Z) (x : A) (l : list A) :
  sort_insert cmp x l ≡ₚ x :: l.
Proof.
  induction l as [|y l IH]; simpl; [done|].
  destruct (cmp x y <=? 0); [done|].
  rewrite IH. apply Permutation_swap.
Qed.

Lemma array_sort_perm (cmp : A -> A -> Z) (l : list A) :
  array_sort cmp l ≡ₚ l.
Proof.
  induction l as [|x l IH]; simpl; [done|].
  by rewrite sort_insert_perm, IH.
Qed.

(** From here on the order is a key taken in decreasing order. *)
Context (key : A -> Z).

Lemma sort_insert_sorted (x : A) (l : list A) :
  StronglySorted (key_ge key) l ->
  StronglySorted (key_ge key) (sort_insert (descBy key) x l).
Proof.
  induction 1 as [|y l Hl IH Hy]; simpl.
  - repeat constructor.
  - unfold descBy at 1. destruct (Z.leb_spec (key y - key x) 0) as [Hle|Hgt].
    + constructor; [by constructor|].
      constructor; [unfold key_ge; lia|].
      eapply Forall_impl; [exact Hy|]. unfold key_ge. intros; lia.
    + constructor; [done|].
      rewrite sort_insert_perm. constructor; [unfold key_ge; lia | done].
Qed.

Lemma array_sort_sorted (l : list A) :
  StronglySorted (key_ge key) (array_sort (descBy key) l).
Proof.
  induction l as [|x l IH]; simpl; [constructor|].
  by apply sort_insert_sorted.
Qed.

Lemma sort_insert_with_key (k : Z) (x : A) (l : list A) :
  with_key key k (sort_insert (descBy key) x l) = with_key key k (x :: l).
Proof.
  unfold with_key.
  induction l as [|y l IH]; simpl; [done|].
  unfold descBy at 1. destruct (Z.leb_spec (key y - key x) 0) as [Hle|Hgt]; [done|].
  rewrite (filter_cons _ y), IH, !filter_cons.
  repeat case_decide; try done; lia.
Qed.

Lemma array_sort_with_key (k : Z) (l : list A) :
  with_key key k (array_sort (descBy key) l) = with_key key k l.
Proof.
  induction l as [|x l IH]; simpl; [done|].
  rewrite sort_insert_with_key. unfold with_key in *.
  by rewrite !filter_cons, IH.
Qed.

Lemma array_sort_stable_sorted (l : list A) :
  stable_sorted_desc key l (array_sort (descBy key) l).
Proof.
  split; [apply array_sort_perm|].
  split; [apply array_sort_sorted|].
  intros k. apply array_sort_with_key.
Qed.

(** Two lists sorted by decreasing key that agree on the order of the
    elements of every key are the same list. *)
Lemma sorted_with_key_eq (l1 l2 : list A) :
  StronglySorted (key_ge key) l1 -> StronglySorted (key_ge key) l2 ->
  (forall k, with_key key k l1 = with_key key k l2) ->
  l1 = l2.
Proof.
  intros H1. revert l2.
  induction H1 as [|x l1 Hl1 IH Hx]; intros l2 H2 Hk.
  - destruct l2 as [|y l2]; [done|].
    specialize (Hk (key y)). unfold with_key in Hk.
    rewrite filter_cons in Hk. by case_decide.
  - destruct H2 as [|y l2 Hl2 Hy].
    + specialize (Hk (key x)). unfold with_key in Hk.
      rewrite filter_cons in Hk. by case_decide.
    + assert (Hxy : key x = key y).
      { assert (Hin1 : y ∈ x :: l1).
        { assert (Hy0 : y ∈ with_key key (key y) (y :: l2))
            by (apply list_elem_of_filter; split; [done | left]).
          rewrite <- Hk in Hy0. by apply list_elem_of_filter in Hy0 as [_ ?]. }
        assert (Hin2 : x ∈ y :: l2).
        { assert (Hx0 : x ∈ with_key key (key x) (x :: l1))
            by (apply list_elem_of_filter; split; [done | left]).
          rewrite Hk in Hx0. by apply list_elem_of_filter in Hx0 as [_ ?]. }
        rewrite Forall_forall in Hx, Hy. unfold key_ge in Hx, Hy.
        apply elem_of_cons in Hin1 as [->|Hin1]; [done|].
        apply elem_of_cons in Hin2 as [Heq|Hin2]; [by rewrite Heq|].
        specialize (Hx _ Hin1). specialize (Hy _ Hin2). lia. }
      assert (Hhead := Hk (key x)). unfold with_key in Hhead.
      rewrite !filter_cons in Hhead.
      rewrite decide_True in Hhead by done.
      rewrite decide_True in Hhead by done.
      injection Hhead as -> Htail.
      f_equal. apply IH; [done|].
      intros k. specialize (Hk k). unfold with_key in *.
      rewrite !filter_cons in Hk. case_decide; [by injection Hk | done].
Qed.

(** A stable sort has one possible result, whatever the algorithm. *)
Lemma stable_sort_unique (l sorted : list A) :
  stable_sorted_desc key l sorted -> sorted = array_sort (descBy key) l.
Proof.
  intros (_ & Hs & Hk).
  apply sorted_with_key_eq; [done | apply array_sort_sorted |].
  intros k. by rewrite Hk, array_sort_with_key.
Qed.
End SortFacts.

Lemma byStarsDesc_descBy : byStarsDesc = descBy ResRepo.stargazers_count.
Proof. reflexivity. Qed.

Lemma strict_eq_str_spec (v : JsVal) (lit : string) :
  strict_eq_str v lit = true <-> v = JStr lit.
Proof.
  destruct v; simpl; try (split; [discriminate | congruence]).
  rewrite String.eqb_eq. split; congruence.
Qed.

Lemma strict_eq_str_false (v : JsVal) (lit : string) :
  strict_eq_str v lit = false <-> v <> JStr lit.
Proof.
  rewrite <- strict_eq_str_spec. by destruct (strict_eq_str v lit).
Qed.

Lemma sampleSorted_stable_sorted :
  stable_sorted_desc ResRepo.stargazers_count sampleRepos sampleSorted.
Proof.
  split; [|split].
  - unfold sampleRepos, sampleSorted.
    set (a := sampleRepo 1 _ _). set (b := sampleRepo 2 _ _).
    set (c := sampleRepo 3 _ _). set (d := sampleRepo 4 _ _).
    set (e := sampleRepo 5 _ _). solve_Permutation.
  - unfold sampleSorted, key_ge.
    repeat (constructor; [| repeat (constructor; [simpl; lia|]); constructor]).
    constructor.
  - intros k. unfold with_key, sampleRepos, sampleSorted.
    rewrite !filter_cons, !filter_nil. simpl.
    repeat case_decide; try reflexivity; lia.
Qed.

(** ** The completion of [fetchRepos] *)

(** C1. For every sequence of repository records, the completion of
    [fetchRepos] stores the records stably sorted by decreasing
    [stargazers_count] (a permutation of the input, in decreasing order,
    records of equal count in input order), each mapped to
    [{id, name, url = html_url}], cut to the first three.  Such a sorted
    sequence exists, and whichever one is taken the stored list is its
    mapped three-element prefix.  For the star counts 5, 20, 20, 1, 9 the
    result is the second, third and fifth record. *)
Theorem fetchRepos_top3_stable (res : list ResRepo.t) (st : AppState) :
  (exists sorted,
      stable_sorted_desc ResRepo.stargazers_count res sorted
      /\ repos (fetchRepos_then res st)
         = take 3 (map (fun r => Repo.mk (ResRepo.id r) (ResRepo.name r)
                                         (ResRepo.html_url r)) sorted))
  /\ (forall sorted,
        stable_sorted_desc ResRepo.stargazers_count res sorted ->
        repos (fetchRepos_then res st)
        = take 3 (map (fun r => Repo.mk (ResRepo.id r) (ResRepo.name r)
                                        (ResRepo.html_url r)) sorted))
  /\ (length (repos (fetchRepos_then res st)) <= 3)%nat
  /\ repos (fetchRepos_then sampleRepos st)
     = [sampleSummary 2 "beta"; sampleSummary 3 "gamma"; sampleSummary 5 "epsilon"].
Proof.
  assert (Huniq : forall sorted,
             stable_sorted_desc ResRepo.stargazers_count res sorted ->
             repos (fetchRepos_then res st) = take 3 (map toRepo sorted)).
  { intros sorted Hs. apply stable_sort_unique in Hs. by subst sorted. }
  split; [|split; [exact Huniq | split]].
  - exists (array_sort byStarsDesc res). split; [|done].
    rewrite byStarsDesc_descBy. apply array_sort_stable_sorted.
  - simpl. unfold topRepos, slice0. rewrite length_take. lia.
  - reflexivity.
Qed.

(** The uniqueness part of C1 at the sample: from the stably sorted
    sample alone, without running the sort. *)
Lemma fetchRepos_top3_stable_witness :
  repos (fetchRepos_then sampleRepos initialState)
  = [sampleSummary 2 "beta"; sampleSummary 3 "gamma"; sampleSummary 5 "epsilon"].
Proof.
  destruct (fetchRepos_top3_stable sampleRepos initialState) as (_ & Huniq & _).
  rewrite (Huniq sampleSorted sampleSorted_stable_sorted). reflexivity.
Defined.

(** ** The completion of [fetchUser] *)

Lemma fetchUser_then_not_found (res : gmap string JsVal) (st : AppState) :
  prop res "message" = JStr "Not Found" ->
  fetchUser_then res st = ({| user := NotFound; repos := repos st |}, None).
Proof.
  intros H. unfold fetchUser_then.
  by rewrite (proj2 (strict_eq_str_spec _ _) H).
Qed.

Lemma fetchUser_then_found (res : gmap string JsVal) (st : AppState) :
  prop res "message" <> JStr "Not Found" ->
  fetchUser_then res st
  = ({| user := IsUser (User.mk (prop res "avatar_url") (prop res "name")
                               (prop res "bio"));
        repos := repos st |},
     Some (prop res "repos_url")).
Proof.
  intros H. unfold fetchUser_then.
  by rewrite (proj2 (strict_eq_str_false _ _) H).
Qed.

Lemma completeUser_found_state (res : gmap string JsVal)
    (sys : System) (i : nat) :
  prop res "message" <> JStr "Not Found" ->
  user (app (completeUser i res sys))
  = IsUser (User.mk (prop res "avatar_url") (prop res "name") (prop res "bio"))
  /\ repos (app (completeUser i res sys)) = repos (app sys).
Proof.
  intros H. unfold completeUser.
  by rewrite (fetchUser_then_found _ _ H).
Qed.

(** C2. The completion of a user lookup takes the response for the
    not-found one exactly when its [message] is the string ["Not Found"]:
    that is the only case where the Result becomes [NotFound], and the
    only case where no repository request is issued.  In that case the
    Result is [NotFound] and the requests in flight are the earlier ones
    without the completed lookup. *)
Theorem fetchUser_not_found_exactly (res : gmap string JsVal) (sys : System)
    (i : nat) :
  (user (app (completeUser i res sys)) = NotFound
     <-> prop res "message" = JStr "Not Found")
  /\ (snd (fetchUser_then res (app sys)) = None
       <-> prop res "message" = JStr "Not Found")
  /\ (inflight (completeUser i res sys) = delete i (inflight sys)
       <-> prop res "message" = JStr "Not Found")
  /\ (prop res "message" = JStr "Not Found" ->
      completeUser i res sys
      = {| app := {| user := NotFound; repos := repos (app sys) |};
           inflight := delete i (inflight sys) |}).
Proof.
  unfold completeUser.
  destruct (strict_eq_str (prop res "message") "Not Found") eqn:E.
  - apply strict_eq_str_spec in E.
    rewrite (fetchUser_then_not_found _ _ E). simpl. done.
  - apply strict_eq_str_false in E.
    rewrite (fetchUser_then_found _ _ E). simpl.
    repeat split; try done.
    intros H. exfalso.
    apply (f_equal length) in H. rewrite length_app in H. simpl in H. lia.
Qed.

(** The scenario of the specification: the lookup of [octocat] is
    answered with the not-found body. *)
Lemma fetchUser_not_found_exactly_witness :
  completeUser 0 notFoundResponse octocatSubmitted
  = {| app := {| user := NotFound; repos := [] |}; inflight := [] |}.
Proof.
  apply (fetchUser_not_found_exactly notFoundResponse octocatSubmitted 0).
  reflexivity.
Defined.

(** The match is on the exact string: another case, another type or an
    absent [message] is a profile. *)
Example fetchUser_message_other_case :
  snd (fetchUser_then {[ "message"%string := JStr "not found" ]} initialState)
  = Some JUndefined.
Proof. reflexivity. Qed.

Example fetchUser_message_absent :
  user (fst (fetchUser_then octocatResponse initialState)) = IsUser octocat.
Proof. reflexivity. Qed.

(** C3. For a response that is not the not-found one, the completion of
    the lookup sets the Result to a [User] made of the response's
    [avatar_url], [name] and [bio], and then calls [fetchRepos] with the
    response's [repos_url]. *)
Theorem fetchUser_found_then_fetchRepos (res : gmap string JsVal)
    (sys : System) (i : nat) :
  prop res "message" <> JStr "Not Found" ->
  fetchUser_then res (app sys)
  = ({| user := IsUser {| User.avatarUrl := prop res "avatar_url";
                          User.name := prop res "name";
                          User.bio := prop res "bio" |};
        repos := repos (app sys) |},
     Some (prop res "repos_url"))
  /\ completeUser i res sys
     = fetchRepos (prop res "repos_url")
         {| app := {| user := IsUser {| User.avatarUrl := prop res "avatar_url";
                                        User.name := prop res "name";
                                        User.bio := prop res "bio" |};
                      repos := repos (app sys) |};
            inflight := delete i (inflight sys) |}.
Proof.
  intros H. unfold completeUser.
  by rewrite (fetchUser_then_found _ _ H).
Qed.

Lemma fetchUser_found_then_fetchRepos_witness :
  completeUser 0 octocatResponse octocatSubmitted
  = {| app := {| user := IsUser octocat; repos := [] |};
       inflight :=
         [ReposRequest (JStr "https://api.github.com/users/octocat/repos")] |}.
Proof.
  refine (eq_trans
            (proj2 (fetchUser_found_then_fetchRepos octocatResponse
                      octocatSubmitted 0 _)) _).
  - vm_compute. discriminate.
  - reflexivity.
Defined.

(** ** Reachable systems *)

Lemma reachable_initial : reachable initialSystem.
Proof. apply rtc_refl. Qed.

Lemma reachable_step (sys sys' : System) :
  reachable sys -> step sys sys' -> reachable sys'.
Proof. intros Hr Hs. by eapply rtc_r. Qed.

Lemma reachable_octocatSubmitted : reachable octocatSubmitted.
Proof. eapply reachable_step; [apply reachable_initial | constructor]. Qed.

Lemma reachable_octocatLoaded : reachable octocatLoaded.
Proof.
  apply (reachable_step (completeUser 0 octocatResponse octocatSubmitted)).
  - apply (reachable_step octocatSubmitted).
    + apply reachable_octocatSubmitted.
    + by apply (step_user _ 0%nat (userUrl "octocat")).
  - by apply (step_repos _ 0%nat
                (JStr "https://api.github.com/users/octocat/repos")).
Qed.

Lemma reachable_torvaldsSubmitted : reachable torvaldsSubmitted.
Proof. eapply reachable_step; [apply reachable_octocatLoaded | constructor]. Qed.

(** ** Views *)

Lemma repo_links_repoLinks (l : list Repo.t) :
  concat (List.map (elements_by_class "repo-link") (map repoLink l))
  = map repoLink l.
Proof.
  induction l as [|r l IH]; [done|].
  simpl in *. by rewrite IH.
Qed.

Lemma repo_links_render (st : AppState) :
  repo_links (render st)
  = match user st with
    | IsUser _ => map repoLink (repos st)
    | NotFound | Nothing => []
    end.
Proof.
  unfold repo_links, render, profileView, reposView.
  destruct (user st); [|done..].
  cbn -[repoLink]. rewrite !app_nil_r. apply repo_links_repoLinks.
Qed.

(** Steps in which no callback runs leave the state as it is; steps in
    which no lookup completes leave the Result as it is.  Both kinds are
    steps of the system. *)
Lemma quiet_step_step (sys sys' : System) : quiet_step sys sys' -> step sys sys'.
Proof. destruct 1; [apply step_submit | by eapply step_fail]. Qed.

Lemma lookup_free_step_step (sys sys' : System) :
  lookup_free_step sys sys' -> step sys sys'.
Proof. destruct 1; [by apply quiet_step_step | by eapply step_repos]. Qed.

Lemma quiet_step_lookup_free (sys sys' : System) :
  quiet_step sys sys' -> lookup_free_step sys sys'.
Proof. apply lookup_free_quiet. Qed.

Lemma quiet_run_app (sys sys' : System) :
  rtc quiet_step sys sys' -> app sys' = app sys.
Proof.
  induction 1 as [|s1 s2 s3 Hs _ IH]; [done|].
  rewrite IH. by destruct Hs.
Qed.

Lemma lookup_free_run_user (sys sys' : System) :
  rtc lookup_free_step sys sys' -> user (app sys') = user (app sys).
Proof.
  induction 1 as [|s1 s2 s3 Hs _ IH]; [done|].
  rewrite IH. destruct Hs as [s s' Hq|s i reposUrl res _]; [|done].
  by destruct Hq.
Qed.

(** Where the claim C4 fails, in two runs.  In the first, a lookup
    completes while the state still holds the repositories of an earlier
    one: [torvaldsSubmitted] is reachable, its request 0 is the lookup of
    [torvalds], the response is a profile; once that lookup has completed,
    and with its repository request in flight, the page shows the three
    links of [octocat].  In the second, two lookups are in flight at once:
    [octocat] is found first ([overlapOctocatFound], reachable), then
    [torvalds] is ([overlapTorvaldsFound], one step further); the
    repository request of [octocat] is still the oldest in flight, and
    the Result and the profile shown are those of [torvalds]. *)
Lemma between_states_show_other_content :
  (reachable torvaldsSubmitted
   /\ inflight torvaldsSubmitted !! 0%nat
      = Some (UserRequest (userUrl "torvalds"))
   /\ strict_eq_str (prop torvaldsResponse "message") "Not Found" = false
   /\ inflight (completeUser 0 torvaldsResponse torvaldsSubmitted)
      = [ReposRequest (JStr "https://api.github.com/users/torvalds/repos")]
   /\ user (app (completeUser 0 torvaldsResponse torvaldsSubmitted))
      = IsUser torvalds
   /\ repo_links
        (render (app (completeUser 0 torvaldsResponse torvaldsSubmitted)))
      = [ repoLink (sampleSummary 2 "beta"); repoLink (sampleSummary 3 "gamma");
          repoLink (sampleSummary 5 "epsilon") ])
  /\ (reachable overlapOctocatFound
      /\ strict_eq_str (prop octocatResponse "message") "Not Found" = false
      /\ user (app overlapOctocatFound) = IsUser octocat
      /\ inflight overlapOctocatFound
         = [ UserRequest (userUrl "torvalds");
             ReposRequest (JStr "https://api.github.com/users/octocat/repos") ]
      /\ step overlapOctocatFound overlapTorvaldsFound
      /\ inflight overlapTorvaldsFound
         = [ ReposRequest (JStr "https://api.github.com/users/octocat/repos");
             ReposRequest (JStr "https://api.github.com/users/torvalds/repos") ]
      /\ user (app overlapTorvaldsFound) = IsUser torvalds
      /\ profileView (app overlapTorvaldsFound)
         = visitUser userRenderVisitor torvalds).
Proof.
  split.
  - split; [apply reachable_torvaldsSubmitted|]. repeat split; reflexivity.
  - assert (Hr : reachable overlapOctocatFound).
    { apply (reachable_step overlapSubmitted).
      - apply (reachable_step (submitForm "octocat" initialSystem)).
        + apply (reachable_step initialSystem);
            [apply reachable_initial | apply step_submit].
        + apply step_submit.
      - by apply (step_user _ 0%nat (userUrl "octocat")). }
    split; [exact Hr|].
    repeat split; try reflexivity.
    by apply (step_user _ 0%nat (userUrl "torvalds")).
Qed.

(** C4, amended. For a profile response, take the states that follow the
    completion of the lookup, and so every state between that completion
    and the completion of its repository request.  In each of them
    reached while no other user lookup completes (submissions, failed
    requests and repository listings may happen), the profile view is
    exactly the avatar URL, the name and the bio of the response, and the
    repo view is the section title followed by one link per summary in
    the state.  In each of them reached while no other request completes
    either (submissions and failed requests may happen), those links are
    the links of the summaries that were in the state before the lookup
    completed: none when that list was empty, as on the first lookup. *)
Theorem profile_shown_until_repos_resolve (res : gmap string JsVal)
    (sys sys' : System) (i : nat) :
  prop res "message" <> JStr "Not Found" ->
  (rtc lookup_free_step (completeUser i res sys) sys' ->
   profileView (app sys')
   = RFragment
       [ el "img" [className "user-avatar"; ("src"%string, prop res "avatar_url");
                   ("alt"%string, JStr "")] [];
         el "div" [className "user-name"] [RValue (prop res "name")];
         el "div" [className "user-bio"] [RValue (prop res "bio")] ]
   /\ reposView (app sys')
      = RFragment
          [ el "div" [className "repo-section-title"] [RText "Top repositories"];
            RArray (map repoLink (repos (app sys'))) ])
  /\ (rtc quiet_step (completeUser i res sys) sys' ->
      repos (app sys') = repos (app sys)
      /\ reposView (app sys')
         = RFragment
             [ el "div" [className "repo-section-title"]
                  [RText "Top repositories"];
               RArray (map repoLink (repos (app sys))) ]
      /\ repo_links (render (app sys')) = map repoLink (repos (app sys))
      /\ (repos (app sys) = [] -> repo_links (render (app sys')) = [])).
Proof.
  intros H.
  destruct (completeUser_found_state res sys i H) as [Hu Hr].
  split.
  - intros Hrun. apply lookup_free_run_user in Hrun.
    unfold profileView, reposView. by rewrite Hrun, Hu.
  - intros Hrun. apply quiet_run_app in Hrun.
    rewrite repo_links_render. unfold reposView.
    rewrite Hrun, Hu, Hr. repeat split; try done.
    by intros ->.
Qed.

(** The first lookup, of [octocat], has completed and its repositories
    have not; meanwhile [torvalds] is submitted. *)
Lemma profile_shown_until_repos_resolve_witness :
  profileView
    (app (submitForm "torvalds"
            (completeUser 0 octocatResponse octocatSubmitted)))
  = RFragment
      [ el "img" [className "user-avatar";
                  ("src"%string, JStr "https://avatars.githubusercontent.com/u/583231");
                  ("alt"%string, JStr "")] [];
        el "div" [className "user-name"] [RValue (JStr "The Octocat")];
        el "div" [className "user-bio"] [RValue JNull] ]
  /\ repo_links
       (render (app (submitForm "torvalds"
                       (completeUser 0 octocatResponse octocatSubmitted))))
     = [].
Proof.
  assert (Hm : prop octocatResponse "message" <> JStr "Not Found")
    by (vm_compute; discriminate).
  assert (Hq : rtc quiet_step
                 (completeUser 0 octocatResponse octocatSubmitted)
                 (submitForm "torvalds"
                    (completeUser 0 octocatResponse octocatSubmitted)))
    by (apply rtc_once, quiet_submit).
  destruct (profile_shown_until_repos_resolve octocatResponse octocatSubmitted
              (submitForm "torvalds"
                 (completeUser 0 octocatResponse octocatSubmitted)) 0 Hm)
    as [Hfree Hquiet].
  split.
  - apply Hfree. eapply rtc_subrel; [|exact Hq].
    intros s s'. apply quiet_step_lookup_free.
  - apply Hquiet; [exact Hq | reflexivity].
Defined.

(** C5. In every state whose Result is [NotFound], whatever the repo
    list holds, the profile visitor gives the message [User not found.]
    and the repo-list visitor, built from that list or from any other,
    gives [null]. *)
Theorem not_found_views (st : AppState) :
  user st = NotFound ->
  accept (user st) userRenderVisitor
  = RElement "div" None [("className"%string, JStr "warning-message")]
             [RText "User not found."]
  /\ accept (user st) (ReposRenderVisitor (repos st)) = RNull
  /\ (forall l, accept (user st) (ReposRenderVisitor l) = RNull)
  /\ repo_links (render st) = [].
Proof.
  intros H. rewrite repo_links_render, H. done.
Qed.

Lemma not_found_views_witness :
  length (repos (app ghostNotFound)) = 3%nat
  /\ accept (user (app ghostNotFound)) userRenderVisitor
     = RElement "div" None [("className"%string, JStr "warning-message")]
                [RText "User not found."]
  /\ accept (user (app ghostNotFound)) (ReposRenderVisitor (repos (app ghostNotFound)))
     = RNull.
Proof.
  split; [reflexivity|].
  destruct (not_found_views (app ghostNotFound) eq_refl) as (Hp & Hr & _).
  exact (conj Hp Hr).
Defined.

(** C6. Before any submission the Result is [Nothing] (no request yet),
    the repo list is empty, no request is in flight, and the profile view
    is the message [You haven't made any requests yet.]. *)
Theorem initial_state_view :
  app initialSystem = initialState
  /\ inflight initialSystem = []
  /\ user initialState = Nothing
  /\ repos initialState = []
  /\ profileView initialState
     = RElement "div" None [("className"%string, JStr "warning-message")]
                [RText "You haven't made any requests yet."]
  /\ reposView initialState = RNull.
Proof. repeat split. Qed.

(** C8. The completion of [fetchRepos] replaces the [repos] field by the
    summary sequence computed from the response and leaves the [user]
    field (and the other requests in flight) as it was. *)
Theorem fetchRepos_replaces_only_repos (res : list ResRepo.t) (sys : System)
    (i : nat) :
  user (app (completeRepos i res sys)) = user (app sys)
  /\ repos (app (completeRepos i res sys)) = topRepos res
  /\ fetchRepos_then res (app sys)
     = {| user := user (app sys); repos := topRepos res |}
  /\ inflight (completeRepos i res sys) = delete i (inflight sys).
Proof. repeat split. Qed.

(** C10. When the lookup completes with the not-found response, the
    [repos] field keeps its value: summaries stored by an earlier lookup
    stay in the state. *)
Theorem not_found_keeps_repos (res : gmap string JsVal) (sys : System)
    (i : nat) :
  prop res "message" = JStr "Not Found" ->
  repos (app (completeUser i res sys)) = repos (app sys)
  /\ user (app (completeUser i res sys)) = NotFound.
Proof.
  intros H. unfold completeUser.
  by rewrite (fetchUser_then_not_found _ _ H).
Qed.

Lemma not_found_keeps_repos_witness :
  repos (app ghostNotFound)
  = [sampleSummary 2 "beta"; sampleSummary 3 "gamma"; sampleSummary 5 "epsilon"]
  /\ user (app ghostNotFound) = NotFound.
Proof.
  destruct (not_found_keeps_repos notFoundResponse
              (submitForm "ghost" octocatLoaded) 0 eq_refl) as [Hr Hu].
  split; [|exact Hu].
  unfold ghostNotFound. rewrite Hr. reflexivity.
Defined.

(** ** The bound on the repo list *)

Lemma topRepos_length (res : list ResRepo.t) : (length (topRepos res) <= 3)%nat.
Proof. unfold topRepos, slice0. rewrite length_take. lia. Qed.

Lemma step_repos_bound (sys sys' : System) :
  step sys sys' ->
  (length (repos (app sys)) <= 3)%nat ->
  (length (repos (app sys')) <= 3)%nat.
Proof.
  intros Hs Hb. destruct Hs as [sys term | sys i url res _ | sys i url res _ | sys i req _].
  - exact Hb.
  - unfold completeUser, fetchUser_then.
    by destruct (strict_eq_str _ _).
  - apply topRepos_length.
  - exact Hb.
Qed.

(** C9. In every reachable system (the initial one, and after any
    sequence of submissions and of completions of [fetchUser] and
    [fetchRepos], with any responses) the repo list has at most three
    entries. *)
Theorem repos_at_most_three (sys : System) :
  reachable sys -> (length (repos (app sys)) <= 3)%nat.
Proof.
  unfold reachable. revert sys.
  apply (rtc_ind_r (fun s => length (repos (app s)) <= 3)%nat).
  - simpl. lia.
  - intros sys1 sys2 _ Hstep IH. by eapply step_repos_bound.
Qed.

Lemma repos_at_most_three_witness :
  (length (repos (app octocatLoaded)) <= 3)%nat.
Proof. exact (repos_at_most_three octocatLoaded reachable_octocatLoaded). Defined.

(** ** Submitting the same name twice *)

Section NetworkFacts.
Variable lookupEndpoint : string -> option (gmap string JsVal).
Variable reposEndpoint : JsVal -> option (list ResRepo.t).

Local Abbreviation settleRequest := (settleRequest lookupEndpoint reposEndpoint).
Local Abbreviation settle := (settle lookupEndpoint reposEndpoint).
Local Abbreviation submitAndSettle := (submitAndSettle lookupEndpoint reposEndpoint).

Lemma settleRequest_step (req : Request) (sys : System) :
  inflight sys !! 0%nat = Some req -> step sys (settleRequest req sys).
Proof.
  intros H. destruct req as [url|reposUrl]; simpl.
  - destruct (lookupEndpoint url); [by eapply step_user | by eapply step_fail].
  - destruct (reposEndpoint reposUrl); [by eapply step_repos | by eapply step_fail].
Qed.

(** Settling is a run of the system. *)
Lemma settle_steps (n : nat) (sys : System) : rtc step sys (settle n sys).
Proof.
  revert sys. induction n as [|n IH]; intros sys; simpl; [done|].
  destruct (inflight sys) as [|req rest] eqn:E; [done|].
  eapply rtc_l; [|apply IH].
  apply settleRequest_step. by rewrite E.
Qed.

Lemma submitAndSettle_cases (username : string) (st : AppState) :
  submitAndSettle username st
  = {| app :=
         match lookupEndpoint (userUrl username) with
         | None => st
         | Some res =>
             match fetchUser_then res st with
             | (st1, None) => st1
             | (st1, Some reposUrl) =>
                 match reposEndpoint reposUrl with
                 | None => st1
                 | Some rs => fetchRepos_then rs st1
                 end
             end
         end;
       inflight := [] |}.
Proof.
  unfold submitAndSettle, submitForm, fetchUser. simpl.
  destruct (lookupEndpoint (userUrl username)) as [res|]; [|done].
  unfold completeUser. simpl.
  destruct (fetchUser_then res st) as [st1 [reposUrl|]]; [|done].
  simpl. by destruct (reposEndpoint reposUrl).
Qed.

Lemma submitAndSettle_twice (username : string) (st : AppState) :
  submitAndSettle username (app (submitAndSettle username st))
  = submitAndSettle username st.
Proof.
  rewrite !submitAndSettle_cases. simpl. f_equal.
  destruct (lookupEndpoint (userUrl username)) as [res|]; [|done].
  unfold fetchUser_then.
  destruct (strict_eq_str (prop res "message") "Not Found"); [done|].
  by destruct (reposEndpoint (prop res "repos_url")).
Qed.
End NetworkFacts.

(** C7. With endpoints that answer the same request with the same
    response, a submission made when nothing is in flight resolves fully
    (it is a run of the system that ends with nothing in flight), and
    submitting the same username again from the state it ends in, and
    letting that resolve fully too, ends in the same state. *)
Theorem resubmission_idempotent
    (lookupEndpoint : string -> option (gmap string JsVal))
    (reposEndpoint : JsVal -> option (list ResRepo.t))
    (username : string) (st : AppState) :
  rtc step (submitForm username {| app := st; inflight := [] |})
           (submitAndSettle lookupEndpoint reposEndpoint username st)
  /\ inflight (submitAndSettle lookupEndpoint reposEndpoint username st) = []
  /\ submitAndSettle lookupEndpoint reposEndpoint username
       (app (submitAndSettle lookupEndpoint reposEndpoint username st))
     = submitAndSettle lookupEndpoint reposEndpoint username st.
Proof.
  split; [apply settle_steps|].
  split; [by rewrite submitAndSettle_cases|].
  apply submitAndSettle_twice.
Qed.

(** The same from the initial state, with an endpoint that knows [octocat]. *)
Example resubmission_octocat :
  let lookup := fun url =>
    if String.eqb url (userUrl "octocat") then Some octocatResponse
    else Some notFoundResponse in
  let listing := fun _ : JsVal => Some sampleRepos in
  app (submitAndSettle lookup listing "octocat" initialState)
  = {| user := IsUser octocat;
       repos := [sampleSummary 2 "beta"; sampleSummary 3 "gamma";
                 sampleSummary 5 "epsilon"] |}
  /\ app (submitAndSettle lookup listing "octocat"
            (app (submitAndSettle lookup listing "octocat" initialState)))
     = app (submitAndSettle lookup listing "octocat" initialState).
Proof. split; reflexivity. Qed.

(** * Further properties of the code *)

(** ** What the ranking keeps *)

Section RankingFacts.
Context {A : Type} (key : A -> Z).

Lemma array_sort_length (cmp : A -> A -> Z) (l : list A) :
  length (array_sort cmp l) = length l.
Proof. apply Permutation_length, array_sort_perm. Qed.

(** A sorted list is its own stable sort. *)
Lemma array_sort_sorted_id (l : list A) :
  StronglySorted (key_ge key) l -> array_sort (descBy key) l = l.
Proof.
  intros Hs. symmetry. apply stable_sort_unique. by repeat split.
Qed.

Lemma with_key_NoDup_length (k : Z) (l : list A) :
  NoDup (map key l) -> (length (with_key key k l) <= 1)%nat.
Proof.
  unfold with_key. induction l as [|x l IH]; simpl; [lia|].
  intros Hnd. apply NoDup_cons in Hnd as [Hx Hnd].
  rewrite filter_cons. case_decide as Hk; [|by apply IH].
  assert (Hnil : filter (fun a => key a = k) l = []).
  { destruct (filter (fun a => key a = k) l) as [|y t] eqn:E; [done|].
    assert (Hy : y ∈ filter (fun a => key a = k) l) by (rewrite E; left).
    apply list_elem_of_filter in Hy as [Hky Hy].
    exfalso. apply Hx. rewrite Hk, <- Hky. by apply list_elem_of_fmap_2. }
  rewrite Hnil. simpl. lia.
Qed.

Lemma short_Permutation_eq (l1 l2 : list A) :
  (length l1 <= 1)%nat -> l1 ≡ₚ l2 -> l1 = l2.
Proof.
  destruct l1 as [|a [|b l1]]; simpl; intros Hlen Hp.
  - by apply Permutation_nil_l.
  - by apply Permutation_singleton_l.
  - lia.
Qed.

(** With pairwise distinct keys the sort does not depend on the order of
    its input. *)
Lemma array_sort_distinct_keys (l1 l2 : list A) :
  l1 ≡ₚ l2 -> NoDup (map key l1) ->
  array_sort (descBy key) l1 = array_sort (descBy key) l2.
Proof.
  intros Hp Hnd.
  apply (sorted_with_key_eq key); [apply array_sort_sorted..|].
  intros k. rewrite !array_sort_with_key.
  apply short_Permutation_eq; [by apply with_key_NoDup_length|].
  unfold with_key. by rewrite Hp.
Qed.

(** The two parts of a sorted list: nothing in the second part has a
    larger key than anything in the first. *)
Lemma sorted_take_drop (n : nat) (l : list A) (a b : A) :
  StronglySorted (key_ge key) l ->
  a ∈ take n l -> b ∈ drop n l -> key b <= key a.
Proof.
  intros Hs Ha Hb. rewrite <- (take_drop n l) in Hs.
  exact (StronglySorted_app_1_elem_of _ _ _ _ _ Hs Ha Hb).
Qed.
End RankingFacts.

(** X1. The summaries stored are those of the highest-starred records:
    the response splits into the records kept and the records left out,
    the stored list is the kept ones mapped in order, there are three of
    them (all of them, for a shorter response), they are in decreasing
    star order, and no record left out has more stars than a record kept. *)
Theorem topRepos_are_the_highest (res : list ResRepo.t) :
  exists kept rest,
    kept ++ rest ≡ₚ res
    /\ topRepos res = map toRepo kept
    /\ length kept = Nat.min 3 (length res)
    /\ StronglySorted (key_ge ResRepo.stargazers_count) kept
    /\ forall a b, a ∈ kept -> b ∈ rest ->
         ResRepo.stargazers_count b <= ResRepo.stargazers_count a.
Proof.
  pose proof (array_sort_sorted ResRepo.stargazers_count res) as Hs.
  exists (take 3 (array_sort byStarsDesc res)),
         (drop 3 (array_sort byStarsDesc res)).
  split; [by rewrite take_drop, array_sort_perm|].
  split; [unfold topRepos, slice0; by rewrite fmap_take|].
  split; [by rewrite length_take, array_sort_length|].
  split.
  - rewrite <- (take_drop 3 (array_sort _ res)) in Hs.
    by apply StronglySorted_app_1_l in Hs.
  - intros a b Ha Hb. by eapply sorted_take_drop.
Qed.

(** X2. A response of at most three records is kept whole: the stored
    list has the summary of every record, reordered only. *)
Theorem few_repos_all_kept (res : list ResRepo.t) :
  (length res <= 3)%nat ->
  topRepos res ≡ₚ map toRepo res
  /\ length (topRepos res) = length res.
Proof.
  intros Hlen. unfold topRepos, slice0.
  rewrite take_ge by (rewrite length_map, array_sort_length; lia).
  split; [by rewrite array_sort_perm|].
  by rewrite length_map, array_sort_length.
Qed.

Lemma few_repos_all_kept_witness :
  topRepos (take 2 sampleRepos) ≡ₚ map toRepo (take 2 sampleRepos)
  /\ length (topRepos (take 2 sampleRepos)) = length (take 2 sampleRepos).
Proof. apply (few_repos_all_kept (take 2 sampleRepos)). simpl. lia. Defined.

(** X3. A response that already comes in decreasing star order keeps its
    order: the stored list is the summaries of its first three records. *)
Theorem sorted_response_prefix (res : list ResRepo.t) :
  StronglySorted (key_ge ResRepo.stargazers_count) res ->
  topRepos res = map toRepo (take 3 res).
Proof.
  intros Hs. unfold topRepos, slice0.
  rewrite byStarsDesc_descBy, (array_sort_sorted_id _ _ Hs).
  by rewrite fmap_take.
Qed.

Lemma sorted_response_prefix_witness :
  topRepos sampleSorted = map toRepo (take 3 sampleSorted).
Proof.
  apply (sorted_response_prefix sampleSorted).
  apply sampleSorted_stable_sorted.
Defined.

(** X4. When no two records have the same star count, the stored list
    does not depend on the order in which the response lists them. *)
Theorem topRepos_order_independent (res1 res2 : list ResRepo.t) :
  res1 ≡ₚ res2 ->
  NoDup (map ResRepo.stargazers_count res1) ->
  topRepos res1 = topRepos res2.
Proof.
  intros Hp Hnd. unfold topRepos.
  by rewrite byStarsDesc_descBy, (array_sort_distinct_keys _ _ _ Hp Hnd).
Qed.

Lemma topRepos_order_independent_witness :
  topRepos distinctRepos = topRepos distinctReposShuffled.
Proof.
  apply (topRepos_order_independent distinctRepos distinctReposShuffled).
  - unfold distinctRepos, distinctReposShuffled.
    set (a := sampleRepo 1 _ _). set (b := sampleRepo 2 _ _).
    set (d := sampleRepo 4 _ _). set (e := sampleRepo 5 _ _).
    solve_Permutation.
  - apply (bool_decide_unpack _). vm_compute. exact I.
Defined.

(** ** Responses that lack the fields read *)

(** X5. A response whose [message] is not the not-found string and that
    has none of [avatar_url], [name], [bio], [repos_url] is taken for a
    profile: the Result becomes a [User] whose three fields are
    [undefined], and [fetchRepos] is called with [undefined]. *)
Theorem incomplete_response_is_a_profile (res : gmap string JsVal)
    (sys : System) (i : nat) :
  prop res "message" <> JStr "Not Found" ->
  res !! "avatar_url"%string = None ->
  res !! "name"%string = None ->
  res !! "bio"%string = None ->
  res !! "repos_url"%string = None ->
  completeUser i res sys
  = {| app := {| user := IsUser (User.mk JUndefined JUndefined JUndefined);
                 repos := repos (app sys) |};
       inflight := delete i (inflight sys) ++ [ReposRequest JUndefined] |}.
Proof.
  intros Hm Ha Hn Hb Hr. unfold completeUser.
  rewrite (fetchUser_then_found _ _ Hm).
  unfold prop. by rewrite Ha, Hn, Hb, Hr.
Qed.

Lemma incomplete_response_is_a_profile_witness :
  completeUser 0 rateLimitResponse octocatSubmitted
  = {| app := {| user := IsUser (User.mk JUndefined JUndefined JUndefined);
                 repos := [] |};
       inflight := [ReposRequest JUndefined] |}.
Proof.
  refine (eq_trans
            (incomplete_response_is_a_profile rateLimitResponse
               octocatSubmitted 0 _ eq_refl eq_refl eq_refl eq_refl) _).
  - vm_compute. discriminate.
  - reflexivity.
Defined.

(** ** Invariants of the running system *)

Lemma reachable_invariant (P : System -> Prop) :
  P initialSystem ->
  (forall sys sys', step sys sys' -> P sys -> P sys') ->
  forall sys, reachable sys -> P sys.
Proof.
  intros Hinit Hstep. unfold reachable.
  apply (rtc_ind_r P); [done|].
  intros sys1 sys2 _ Hs IH. by eapply Hstep.
Qed.

Lemma completeUser_not_nothing (i : nat) (res : gmap string JsVal)
    (sys : System) :
  user (app (completeUser i res sys)) <> Nothing.
Proof.
  unfold completeUser, fetchUser_then.
  by destruct (strict_eq_str _ _).
Qed.

Lemma step_user_not_nothing (sys sys' : System) :
  step sys sys' -> user (app sys) <> Nothing -> user (app sys') <> Nothing.
Proof.
  intros Hs Hu.
  destruct Hs as [sys term | sys i url res _ | sys i url res _ | sys i req _];
    try exact Hu.
  apply completeUser_not_nothing.
Qed.

(** X6. Once a lookup has completed, the Result is never [Nothing]
    again: whatever is submitted and whatever completes or fails
    afterwards, the no-request-yet state does not come back. *)
Theorem nothing_never_comes_back (sys sys' : System) :
  rtc step sys sys' ->
  user (app sys) <> Nothing ->
  user (app sys') <> Nothing.
Proof.
  induction 1 as [|sys1 sys2 sys3 Hs _ IH]; [done|].
  intros Hu. apply IH. by eapply step_user_not_nothing.
Qed.

Lemma nothing_never_comes_back_witness :
  user (app ghostNotFound) <> Nothing.
Proof.
  apply (nothing_never_comes_back octocatLoaded ghostNotFound).
  - eapply rtc_l; [apply (step_submit _ "ghost")|].
    apply rtc_once. by apply (step_user _ 0%nat (userUrl "ghost")).
  - discriminate.
Defined.

(** X7. As long as the Result is [Nothing], nothing else has happened to
    the state: in every reachable system whose Result is [Nothing] the
    state is the initial one, and no repository listing is in flight. *)
Theorem nothing_means_initial (sys : System) :
  reachable sys ->
  user (app sys) = Nothing ->
  app sys = initialState
  /\ forall reposUrl, ReposRequest reposUrl ∉ inflight sys.
Proof.
  intros Hr Hu.
  assert (Hinv : repos (app sys) = []
                 /\ forall reposUrl, ReposRequest reposUrl ∉ inflight sys).
  { revert sys Hr Hu.
    apply (reachable_invariant
             (fun s => user (app s) = Nothing ->
                       repos (app s) = []
                       /\ forall reposUrl, ReposRequest reposUrl ∉ inflight s)).
    - intros _. split; [done|]. intros reposUrl. apply not_elem_of_nil.
    - intros s s' Hs IH Hu.
      destruct Hs as [s term | s i url res _ | s i url res Hi | s i req _].
      + destruct (IH Hu) as [Hrepos Hno]. split; [done|].
        intros reposUrl. simpl. rewrite elem_of_app, list_elem_of_singleton.
        intros [Hin|Heq]; [by eapply Hno | discriminate].
      + by apply completeUser_not_nothing in Hu.
      + destruct (IH Hu) as [_ Hno]. exfalso. apply (Hno url).
        by eapply list_elem_of_lookup_2.
      + destruct (IH Hu) as [Hrepos Hno]. split; [done|].
        intros reposUrl Hin. apply (Hno reposUrl). simpl in Hin.
        by eapply list_elem_of_delete_inv. }
  destruct Hinv as [Hrepos Hno]. split; [|done].
  destruct (app sys) as [u rs]. simpl in *. by subst.
Qed.

Lemma nothing_means_initial_witness :
  app octocatSubmitted = initialState
  /\ forall reposUrl, ReposRequest reposUrl ∉ inflight octocatSubmitted.
Proof.
  apply (nothing_means_initial octocatSubmitted).
  - apply reachable_octocatSubmitted.
  - reflexivity.
Defined.

(** X8. In every reachable system the rendered page shows at most three
    repository links. *)
Theorem at_most_three_links_rendered (sys : System) :
  reachable sys ->
  (length (repo_links (render (app sys))) <= 3)%nat.
Proof.
  intros Hr.
  assert (Hb : (length (repos (app sys)) <= 3)%nat).
  { revert sys Hr.
    apply (reachable_invariant (fun s => length (repos (app s)) <= 3)%nat).
    - simpl. lia.
    - intros s s' Hs IH. by eapply step_repos_bound. }
  rewrite repo_links_render.
  destruct (user (app sys)); simpl; [by rewrite length_map | lia..].
Qed.

Lemma at_most_three_links_rendered_witness :
  (length (repo_links (render (app octocatLoaded))) <= 3)%nat.
Proof.
  exact (at_most_three_links_rendered octocatLoaded reachable_octocatLoaded).
Defined.

(** ** What the page shows *)

Lemma repoLinks_other_class (c : string) (l : list Repo.t) :
  String.eqb "repo-link" c = false ->
  concat (List.map (elements_by_class c) (map repoLink l)) = [].
Proof.
  intros Hc. induction l as [|r l IH]; [done|].
  cbn -[String.eqb]. rewrite Hc. exact IH.
Qed.

(** X9. Whatever the state, the page shows the search form once, and
    either one warning message or one profile (its avatar), never both;
    the title of the repository section is there exactly when the
    profile is. *)
Theorem page_shows_warning_or_profile (st : AppState) :
  length (elements_by_class "search-form" (render st)) = 1%nat
  /\ (length (elements_by_class "warning-message" (render st))
      + length (elements_by_class "user-avatar" (render st)) = 1)%nat
  /\ length (elements_by_class "repo-section-title" (render st))
     = length (elements_by_class "user-avatar" (render st))
  /\ (length (elements_by_class "user-avatar" (render st)) = 1%nat
      <-> exists u, user st = IsUser u).
Proof.
  destruct st as [[u| |] rs]; unfold render, profileView, reposView;
    cbn -[repoLink];
    rewrite ?repoLinks_other_class by reflexivity; cbn.
  - repeat split; eauto.
  - repeat split; try done. by intros [u Hu].
  - repeat split; try done. by intros [u Hu].
Qed.

(** ** Overlapping lookups *)

Lemma completeUser_found_inflight (i : nat) (res : gmap string JsVal)
    (sys : System) :
  prop res "message" <> JStr "Not Found" ->
  inflight (completeUser i res sys)
  = delete i (inflight sys) ++ [ReposRequest (prop res "repos_url")].
Proof.
  intros H. unfold completeUser.
  by rewrite (fetchUser_then_found _ _ H).
Qed.

Lemma completeRepos_inflight (i : nat) (res : list ResRepo.t) (sys : System) :
  inflight (completeRepos i res sys) = delete i (inflight sys).
Proof. reflexivity. Qed.

Lemma completeRepos_user (i : nat) (res : list ResRepo.t) (sys : System) :
  user (app (completeRepos i res sys)) = user (app sys).
Proof. reflexivity. Qed.

Lemma AppState_eq (st1 st2 : AppState) :
  user st1 = user st2 -> repos st1 = repos st2 -> st1 = st2.
Proof. destruct st1, st2. simpl. by intros -> ->. Qed.

Lemma System_eq (sys1 sys2 : System) :
  app sys1 = app sys2 -> inflight sys1 = inflight sys2 -> sys1 = sys2.
Proof. destruct sys1, sys2. simpl. by intros -> ->. Qed.

(** X10. The state can end up mixing two lookups.  When two lookups are
    submitted in a row with nothing else in flight, both find a profile,
    and the four completions come in the order first lookup, second
    lookup, listing of the second, listing of the first, the system ends
    with nothing in flight, the profile of the second lookup, and the
    repositories of the first. *)
Theorem overlapping_lookups_mix (first second : string)
    (resFirst resSecond : gmap string JsVal)
    (reposFirst reposSecond : list ResRepo.t) (sys : System) :
  inflight sys = [] ->
  prop resFirst "message" <> JStr "Not Found" ->
  prop resSecond "message" <> JStr "Not Found" ->
  rtc step sys
      (overlappingRun first second resFirst resSecond reposFirst reposSecond sys)
  /\ overlappingRun first second resFirst resSecond reposFirst reposSecond sys
     = {| app := {| user := IsUser (User.mk (prop resSecond "avatar_url")
                                            (prop resSecond "name")
                                            (prop resSecond "bio"));
                    repos := topRepos reposFirst |};
          inflight := [] |}.
Proof.
  intros Hidle H1 H2. unfold overlappingRun.
  set (s1 := submitForm first sys).
  set (s2 := submitForm second s1).
  set (s3 := completeUser 0 resFirst s2).
  set (s4 := completeUser 0 resSecond s3).
  set (s5 := completeRepos 1 reposSecond s4).
  assert (E2 : inflight s2
               = [UserRequest (userUrl first); UserRequest (userUrl second)]).
  { unfold s2, s1, submitForm, fetchUser. simpl. by rewrite Hidle. }
  assert (E3 : inflight s3
               = [UserRequest (userUrl second);
                  ReposRequest (prop resFirst "repos_url")]).
  { unfold s3. by rewrite (completeUser_found_inflight _ _ _ H1), E2. }
  assert (E4 : inflight s4
               = [ReposRequest (prop resFirst "repos_url");
                  ReposRequest (prop resSecond "repos_url")]
               /\ user (app s4)
                  = IsUser (User.mk (prop resSecond "avatar_url")
                                    (prop resSecond "name")
                                    (prop resSecond "bio"))).
  { unfold s4. split.
    - by rewrite (completeUser_found_inflight _ _ _ H2), E3.
    - apply (completeUser_found_state _ _ _ H2). }
  destruct E4 as [E4 U4].
  assert (E5 : inflight s5 = [ReposRequest (prop resFirst "repos_url")]).
  { unfold s5. rewrite completeRepos_inflight. by rewrite E4. }
  split.
  - eapply rtc_l; [apply (step_submit sys first)|].
    eapply rtc_l; [apply (step_submit s1 second)|].
    eapply rtc_l;
      [apply (step_user s2 0%nat (userUrl first) resFirst); by rewrite E2|].
    eapply rtc_l;
      [apply (step_user s3 0%nat (userUrl second) resSecond); by rewrite E3|].
    eapply rtc_l;
      [apply (step_repos s4 1%nat (prop resSecond "repos_url") reposSecond);
       by rewrite E4|].
    apply rtc_once.
    apply (step_repos s5 0%nat (prop resFirst "repos_url") reposFirst).
    by rewrite E5.
  - apply System_eq.
    + apply AppState_eq; [|done].
      rewrite completeRepos_user. unfold s5. by rewrite completeRepos_user.
    + by rewrite completeRepos_inflight, E5.
Qed.

Lemma overlapping_lookups_mix_witness :
  overlappingRun "octocat" "torvalds" octocatResponse torvaldsResponse
                 sampleRepos [] initialSystem
  = {| app := {| user := IsUser torvalds;
                 repos := [sampleSummary 2 "beta"; sampleSummary 3 "gamma";
                           sampleSummary 5 "epsilon"] |};
       inflight := [] |}.
Proof.
  refine (eq_trans
            (proj2 (overlapping_lookups_mix "octocat" "torvalds"
                      octocatResponse torvaldsResponse sampleRepos []
                      initialSystem eq_refl _ _)) _).
  - vm_compute. discriminate.
  - vm_compute. discriminate.
  - reflexivity.
Defined.

(** ** Settling against a network *)

Lemma pendingWork_app (l1 l2 : list Request) :
  pendingWork (l1 ++ l2) = (pendingWork l1 + pendingWork l2)%nat.
Proof. induction l1 as [|r l1 IH]; simpl; [done|]. rewrite IH. lia. Qed.

Section SettleFacts.
Variable lookupEndpoint : string -> option (gmap string JsVal).
Variable reposEndpoint : JsVal -> option (list ResRepo.t).

Lemma settleRequest_work (req : Request) (rest : list Request) (sys : System) :
  inflight sys = req :: rest ->
  (pendingWork (inflight (settleRequest lookupEndpoint reposEndpoint req sys))
   < pendingWork (inflight sys))%nat.
Proof.
  intros E. rewrite E.
  destruct req as [url|reposUrl]; simpl.
  - destruct (lookupEndpoint url) as [res|]; simpl; [|rewrite E; simpl; lia].
    unfold completeUser.
    destruct (fetchUser_then res (app sys)) as [st [reposUrl|]]; simpl;
      rewrite E; simpl; [rewrite pendingWork_app; simpl|]; lia.
  - destruct (reposEndpoint reposUrl); simpl; rewrite E; simpl; lia.
Qed.

Lemma settle_enough (n : nat) (sys : System) :
  (pendingWork (inflight sys) <= n)%nat ->
  inflight (settle lookupEndpoint reposEndpoint n sys) = [].
Proof.
  revert sys. induction n as [|n IH]; intros sys Hw; simpl.
  - destruct (inflight sys) as [|[?|?] rest]; [done|simpl in Hw; lia..].
  - destruct (inflight sys) as [|req rest] eqn:E; [done|].
    apply IH. pose proof (settleRequest_work req rest sys E) as Hlt.
    rewrite E in Hlt. lia.
Qed.
End SettleFacts.

(** X11. The promise chains end.  Against endpoints that answer every
    request (with a body or a failure), a system with any requests in
    flight settles: after at most two callbacks per user lookup and one
    per repository listing nothing is in flight any more, and this is a
    run of the system. *)
Theorem requests_settle
    (lookupEndpoint : string -> option (gmap string JsVal))
    (reposEndpoint : JsVal -> option (list ResRepo.t)) (sys : System) :
  rtc step sys
      (settle lookupEndpoint reposEndpoint (pendingWork (inflight sys)) sys)
  /\ inflight
       (settle lookupEndpoint reposEndpoint (pendingWork (inflight sys)) sys)
     = [].
Proof.
  split; [apply settle_steps | by apply settle_enough].
Qed.

(** X12. A submission end to end.  When the lookup of the username
    answers with a profile and the listing at its [repos_url] answers
    with records, the settled state is that profile with the three
    highest-starred summaries, whatever the state was before, and the
    page shows one link per summary. *)
Theorem found_submission_settles
    (lookupEndpoint : string -> option (gmap string JsVal))
    (reposEndpoint : JsVal -> option (list ResRepo.t))
    (username : string) (res : gmap string JsVal) (rs : list ResRepo.t)
    (st : AppState) :
  lookupEndpoint (userUrl username) = Some res ->
  prop res "message" <> JStr "Not Found" ->
  reposEndpoint (prop res "repos_url") = Some rs ->
  submitAndSettle lookupEndpoint reposEndpoint username st
  = {| app := {| user := IsUser (User.mk (prop res "avatar_url")
                                         (prop res "name") (prop res "bio"));
                 repos := topRepos rs |};
       inflight := [] |}
  /\ repo_links
       (render (app (submitAndSettle lookupEndpoint reposEndpoint username st)))
     = map repoLink (topRepos rs).
Proof.
  intros Hl Hm Hr.
  assert (E : submitAndSettle lookupEndpoint reposEndpoint username st
              = {| app := {| user := IsUser (User.mk (prop res "avatar_url")
                                              (prop res "name") (prop res "bio"));
                             repos := topRepos rs |};
                   inflight := [] |}).
  { rewrite submitAndSettle_cases, Hl, (fetchUser_then_found _ _ Hm), Hr.
    reflexivity. }
  split; [exact E|]. rewrite E, repo_links_render. reflexivity.
Qed.

Lemma found_submission_settles_witness :
  submitAndSettle sampleLookup sampleListing "octocat"
                  {| user := NotFound; repos := [sampleSummary 1 "alpha"] |}
  = {| app := {| user := IsUser octocat;
                 repos := [sampleSummary 2 "beta"; sampleSummary 3 "gamma";
                           sampleSummary 5 "epsilon"] |};
       inflight := [] |}.
Proof.
  refine (eq_trans
            (proj1 (found_submission_settles sampleLookup sampleListing
                      "octocat" octocatResponse sampleRepos _ eq_refl _ eq_refl))
            _).
  - vm_compute. discriminate.
  - reflexivity.
Defined.

(** X13. A lookup that fails is silent: when the request for the user
    fails, the settled state is the state before the submission. *)
Theorem failed_lookup_changes_nothing
    (lookupEndpoint : string -> option (gmap string JsVal))
    (reposEndpoint : JsVal -> option (list ResRepo.t))
    (username : string) (st : AppState) :
  lookupEndpoint (userUrl username) = None ->
  submitAndSettle lookupEndpoint reposEndpoint username st
  = {| app := st; inflight := [] |}.
Proof.
  intros Hl. by rewrite submitAndSettle_cases, Hl.
Qed.

Lemma failed_lookup_changes_nothing_witness :
  submitAndSettle sampleLookup sampleListing "offline" (app octocatLoaded)
  = {| app := app octocatLoaded; inflight := [] |}.
Proof.
  apply (failed_lookup_changes_nothing sampleLookup sampleListing "offline").
  reflexivity.
Defined.

(** X14. A listing that fails leaves the new profile with the old
    repositories: when the lookup finds a profile and the request for its
    repositories fails, the settled state has that profile and the repo
    list of the state before the submission, and the page shows that
    earlier list under the new profile. *)
Theorem failed_listing_keeps_earlier_repos
    (lookupEndpoint : string -> option (gmap string JsVal))
    (reposEndpoint : JsVal -> option (list ResRepo.t))
    (username : string) (res : gmap string JsVal) (st : AppState) :
  lookupEndpoint (userUrl username) = Some res ->
  prop res "message" <> JStr "Not Found" ->
  reposEndpoint (prop res "repos_url") = None ->
  submitAndSettle lookupEndpoint reposEndpoint username st
  = {| app := {| user := IsUser (User.mk (prop res "avatar_url")
                                         (prop res "name") (prop res "bio"));
                 repos := repos st |};
       inflight := [] |}
  /\ repo_links
       (render (app (submitAndSettle lookupEndpoint reposEndpoint username st)))
     = map repoLink (repos st).
Proof.
  intros Hl Hm Hr.
  assert (E : submitAndSettle lookupEndpoint reposEndpoint username st
              = {| app := {| user := IsUser (User.mk (prop res "avatar_url")
                                              (prop res "name") (prop res "bio"));
                             repos := repos st |};
                   inflight := [] |}).
  { rewrite submitAndSettle_cases, Hl, (fetchUser_then_found _ _ Hm), Hr.
    reflexivity. }
  split; [exact E|]. rewrite E, repo_links_render. reflexivity.
Qed.

Lemma failed_listing_keeps_earlier_repos_witness :
  submitAndSettle (fun _ => Some torvaldsResponse) sampleListing "torvalds"
                  (app octocatLoaded)
  = {| app := {| user := IsUser torvalds;
                 repos := [sampleSummary 2 "beta"; sampleSummary 3 "gamma";
                           sampleSummary 5 "epsilon"] |};
       inflight := [] |}.
Proof.
  refine (eq_trans
            (proj1 (failed_listing_keeps_earlier_repos
                      (fun _ => Some torvaldsResponse) sampleListing "torvalds"
                      torvaldsResponse (app octocatLoaded) eq_refl _ eq_refl))
            _).
  - vm_compute. discriminate.
  - reflexivity.
Defined.

(** ** The lookup URL *)



